(** * Tilde arithmetic model of TildeMathematicaClean.jsx

    A shallow embedding of the numeric core of the React component
    [TildeMathematica]: the LUT sizing functions, the four approximate
    operations of the calculator, the gate-count estimate, the error
    percentage, the slider mapping and the figures the calculator and
    hardware tabs derive from them, together with the properties stated
    for them.

    JavaScript numbers are IEEE 754 binary64 values.  The parameter beta and
    every quantity computed from it by division are kept as primitive
    binary64 floats, whose operations are the ones the JavaScript engine
    runs.  Integer-valued quantities (operands, gaps, bit widths, gate
    counts) are kept as [Z] inside the type [number], which adds the three
    non-finite values a JavaScript number can take; this is exact as long as
    the integers stay below 2^53 in magnitude, which holds for every
    quantity below (bit widths are at most 30 wherever arithmetic on
    operands is involved). *)

From Stdlib Require Import ZArith Lia Bool String List.
From Stdlib Require Import Floats.
From Stdlib Require Import Reals Lra.

(* Decimal literals such as 1.1 denote the nearest binary64 value, as they
   do in JavaScript. *)
Set Warnings "-inexact-float".

Import ListNotations.
Local Open Scope Z_scope.

(** ** JavaScript numbers *)

(** An integer-valued JavaScript number, or one of the non-finite values.
    [Int 0] stands for both signed zeros, which [===] does not tell apart. *)
Inductive number : Type :=
| Int (z : Z)
| NaN
| PosInf
| NegInf.

Declare Scope js_scope.
Delimit Scope js_scope with js.
Bind Scope js_scope with number.

Module Num.

(** [x + y] on numbers. *)
Definition add (x y : number) : number :=
  match x, y with
  | NaN, _ | _, NaN => NaN
  | PosInf, NegInf | NegInf, PosInf => NaN
  | PosInf, _ | _, PosInf => PosInf
  | NegInf, _ | _, NegInf => NegInf
  | Int a, Int b => Int (a + b)
  end.

(** Unary minus. *)
Definition neg (x : number) : number :=
  match x with
  | Int a => Int (- a)
  | NaN => NaN
  | PosInf => NegInf
  | NegInf => PosInf
  end.

(** [x - y] on numbers. *)
Definition sub (x y : number) : number := add x (neg y).

(** Sign of a number that is not [NaN]: -1, 0 or 1. *)
Definition sgn (x : number) : Z :=
  match x with
  | Int a => Z.sgn a
  | PosInf => 1
  | NegInf => -1
  | NaN => 0
  end.

(** [x * y] on numbers: zero times infinity is [NaN]. *)
Definition mul (x y : number) : number :=
  match x, y with
  | NaN, _ | _, NaN => NaN
  | Int a, Int b => Int (a * b)
  | _, _ =>
      match sgn x * sgn y with
      | Z0 => NaN
      | Zpos _ => PosInf
      | Zneg _ => NegInf
      end
  end.

End Num.

Infix "+" := Num.add : js_scope.
Infix "-" := Num.sub : js_scope.
Infix "*" := Num.mul : js_scope.

(** [Math.max(x, y)]: [NaN] if either argument is [NaN]. *)
Definition Math_max (x y : number) : number :=
  match x, y with
  | NaN, _ | _, NaN => NaN
  | PosInf, _ | _, PosInf => PosInf
  | NegInf, v | v, NegInf => v
  | Int a, Int b => Int (Z.max a b)
  end.

(** [Math.min(x, y)]: [NaN] if either argument is [NaN]. *)
Definition Math_min (x y : number) : number :=
  match x, y with
  | NaN, _ | _, NaN => NaN
  | NegInf, _ | _, NegInf => NegInf
  | PosInf, v | v, PosInf => v
  | Int a, Int b => Int (Z.min a b)
  end.

(** [Math.round(x)] of an integer-valued number is the number itself. *)
Definition Math_round (x : number) : number := x.

(** [Math.floor(x)] of a binary64 value: the floor of [(-1)^s * m * 2^e]
    for a finite value, and the value itself otherwise. *)
Definition Math_floor (x : float) : number :=
  match Prim2SF x with
  | S754_zero _ => Int 0
  | S754_infinity false => PosInf
  | S754_infinity true => NegInf
  | S754_nan => NaN
  | S754_finite s m e =>
      let z := if s then Z.neg m else Z.pos m in
      Int (match e with
           | Z0 => z
           | Zpos p => z * 2 ^ Z.pos p
           | Zneg p => Z.shiftr z (Z.pos p)
           end)
  end.

(** [1 << w] for an integer [w]: the shift count is taken modulo 32 and the
    result is a signed 32-bit integer. *)
Definition shl1_int32 (w : Z) : Z :=
  let k := w mod 32 in
  if k =? 31 then - 2 ^ 31 else 2 ^ k.

(** The binary64 value of an integer [n]: [n] rounded to the nearest
    double, ties to even; exact for [|n| <= 2^53]. *)
Definition float_of_Z (n : Z) : float :=
  SF2Prim (binary_normalize prec emax n 0 false).

(** ** Constants *)

Definition EFFICIENCY_THRESHOLD : float := 2%float.

(** ** Utility functions *)

(** [calculateLutLength(beta)]. *)
Definition calculateLutLength (beta : float) : number :=
  let baseLength := Math_max (Int 1) (Math_floor (8 / (beta - 1))%float) in
  if (EFFICIENCY_THRESHOLD <=? beta)%float then Int 1 else baseLength.

Section Model.

(** [Math.log].  ECMAScript leaves its precision to the engine, so it is
    a parameter of the model; the properties that depend on it state
    what they assume of it. *)
Variable Math_log : float -> float.

(** [getLutValue(d, beta)] for an integer gap [d]. *)
Definition getLutValue (d : Z) (beta : float) : number :=
  if (EFFICIENCY_THRESHOLD <=? beta)%float && (0 <? d) then Int 1
  else
    Math_min (Int d)
      (Math_floor (Math_log (float_of_Z (d + 1)) / Math_log beta)%float).

(** ** Main component: derived values *)

(** [maxValue = (1 << bitWidth) - 1]. *)
Definition maxValue (bitWidth : Z) : Z := shl1_int32 bitWidth - 1.

(** The memoised [commonTerms] object. *)
Record CommonTerms : Type := {
  Za : bool;
  Zb : bool;
  Ua : bool;
  Ub : bool;
  E : bool;
  d : Z;
  m : Z
}.

Definition commonTerms (a b : Z) : CommonTerms := {|
  Za := a =? 0;
  Zb := b =? 0;
  Ua := a =? 1;
  Ub := b =? 1;
  E := a =? b;
  d := Z.abs (a - b);
  m := Z.max a b
|}.

(** The memoised [result], as a function of its dependency list
    [operation, commonTerms, beta, maxValue, a, b].  The [switch]
    compares [operation] with each case label in turn and falls to
    [default] when none matches. *)
Definition result (operation : string) (ct : CommonTerms) (beta : float)
    (maxValue a b : Z) : number :=
  let res :=
    if (operation =? "add")%string then
      if Za ct || Zb ct then Int (m ct)
      else if d ct <? 8 then (Int (m ct) + getLutValue (d ct) beta)%js
      else Int (m ct)
    else if (operation =? "sub")%string then
      if E ct then Int 0
      else if Za ct || Zb ct then Int (m ct)
      else (Int (m ct) - getLutValue (d ct) beta)%js
    else if (operation =? "mul")%string then
      if Za ct || Zb ct then Int 0
      else if Ua ct || Ub ct then Int (m ct)
      else Int (a + b - 1)
    else if (operation =? "div")%string then
      if Za ct then Int 0
      else if Zb ct then Int maxValue
      else if E ct then Int 1
      else Int (a - b + 1)
    else Int 0 in
  Math_min (Math_max (Int 0) res) (Int maxValue).

(** The result the component shows for the state
    [(bitWidth, a, b, operation, beta)]. *)
Definition calculator (bitWidth a b : Z) (operation : string)
    (beta : float) : number :=
  result operation (commonTerms a b) beta (maxValue bitWidth) a b.

End Model.

(** The memoised [gateCount] object. *)
Module GateCount.
Record t : Type := {
  base : number;
  lut : number;
  total : number;
  shared : number;
  add : number;
  sub : number;
  mul : number;
  div : number;
  control : number
}.
End GateCount.

(** [gateCount] as a function of its dependency list
    [bitWidth, lutLength, beta]. *)
Definition gateCount (bitWidth : Z) (lutLength : number) (beta : float)
  : GateCount.t :=
  let sharedGates := Math_round (Int bitWidth * Int 6 + Int 32)%js in
  let addGates := Math_round (Int bitWidth * Int 3 + Int 16)%js in
  let subGates := Math_round (Int bitWidth * Int 4 + Int 20)%js in
  let mulGates := Math_round (Int bitWidth * Int 2 + Int 12)%js in
  let divGates := Math_round (Int bitWidth * Int 2 + Int 12)%js in
  let decoderGates := Int 12 in
  let muxGates := Math_round (Int bitWidth * Int 6)%js in
  let baseGates :=
    (sharedGates + addGates + subGates + mulGates + divGates
     + decoderGates + muxGates)%js in
  let lutGates :=
    if (EFFICIENCY_THRESHOLD <=? beta)%float
    then Math_round (lutLength * Int 4)%js
    else Math_round (lutLength * Int 12)%js in
  let total := (baseGates + lutGates)%js in
  {| GateCount.base := baseGates;
     GateCount.lut := lutGates;
     GateCount.total := total;
     GateCount.shared := sharedGates;
     GateCount.add := addGates;
     GateCount.sub := subGates;
     GateCount.mul := mulGates;
     GateCount.div := divGates;
     GateCount.control := (decoderGates + muxGates)%js |}.

(** The gate count the component shows for the state [(bitWidth, beta)]:
    [lutLength] is [calculateLutLength(beta)]. *)
Definition gateCount_of (bitWidth : Z) (beta : float) : GateCount.t :=
  gateCount bitWidth (calculateLutLength beta) beta.

(** *** Error percentage *)

(** The arithmetic an expression of the source is read in: binary64, which
    the engine runs, or the real numbers, which the documentation of the
    formulas reasons in. *)
Record Arith (T : Type) : Type := {
  lit : Z -> T;
  plus : T -> T -> T;
  minus : T -> T -> T;
  times : T -> T -> T;
  divide : T -> T -> T
}.
Arguments lit {T}.
Arguments plus {T}.
Arguments minus {T}.
Arguments times {T}.
Arguments divide {T}.

Definition binary64 : Arith float := {|
  lit := float_of_Z;
  plus := PrimFloat.add;
  minus := PrimFloat.sub;
  times := PrimFloat.mul;
  divide := PrimFloat.div
|}.

Definition exact : Arith R := {|
  lit := IZR;
  plus := Rplus;
  minus := Rminus;
  times := Rmult;
  divide := Rdiv
|}.

(** [100 * (beta - 1) / (beta + 1)], which JavaScript parses as
    [(100 * (beta - 1)) / (beta + 1)]. *)
Definition errorPercentage_in {T : Type} (A : Arith T) (beta : T) : T :=
  divide A (times A (lit A 100) (minus A beta (lit A 1)))
    (plus A beta (lit A 1)).

(** The memoised [errorPercentage] of the component. *)
Definition errorPercentage (beta : float) : float :=
  errorPercentage_in binary64 beta.

(** The same expression read over the real numbers. *)
Definition errorPercentage_exact (beta : R) : R :=
  errorPercentage_in exact beta.

(** *** Beta conversion functions *)

(** [Math.max] and [Math.min] on doubles: NaN if either argument is NaN,
    and +0 counts as larger than -0. *)
Definition float_max (x y : float) : float :=
  if is_nan x || is_nan y then nan
  else if (x <? y)%float then y
  else if (y <? x)%float then x
  else if get_sign x then y else x.

Definition float_min (x y : float) : float :=
  if is_nan x || is_nan y then nan
  else if (x <? y)%float then x
  else if (y <? x)%float then y
  else if get_sign x then x else y.

(** An arithmetic with what the slider mapping needs besides the four
    operations: decimal literals [n / 10^k], [Math.log], [Math.exp], the
    comparison [<=] and [Math.max], [Math.min]. *)
Record Elementary (T : Type) : Type := {
  arith :> Arith T;
  dec : Z -> nat -> T;
  log : T -> T;
  exp : T -> T;
  le : T -> T -> bool;
  max : T -> T -> T;
  min : T -> T -> T
}.
Arguments arith {T}.
Arguments dec {T}.
Arguments log {T}.
Arguments exp {T}.
Arguments le {T}.
Arguments max {T}.
Arguments min {T}.

(** Binary64 with the engine's [Math.log] and [Math.exp].  A decimal
    literal is the double nearest to it, which the correctly rounded
    quotient of the two (exactly represented) integers is. *)
Definition binary64_with (Math_log Math_exp : float -> float)
  : Elementary float := {|
  arith := binary64;
  dec := fun n k => (float_of_Z n / float_of_Z (10 ^ Z.of_nat k))%float;
  log := Math_log;
  exp := Math_exp;
  le := PrimFloat.leb;
  max := float_max;
  min := float_min
|}.

Definition exact_with_ln : Elementary R := {|
  arith := exact;
  dec := fun n k => (IZR n / IZR (10 ^ Z.of_nat k))%R;
  log := ln;
  exp := Rtrigo_def.exp;
  le := fun x y => if Rle_dec x y then true else false;
  max := Rmax;
  min := Rmin
|}.

(** [betaToSlider(beta)]. *)
Definition betaToSlider_in {T : Type} (A : Elementary T) (beta : T) : T :=
  if le A beta (dec A 102 2) then lit A 0
  else if le A (dec A 300 1) beta then lit A 100
  else
    let logBeta := log A (minus A beta (dec A 10 1)) in
    let logMin := log A (dec A 2 2) in
    let logMax := log A (dec A 290 1) in
    times A (divide A (minus A logBeta logMin) (minus A logMax logMin))
      (lit A 100).

(** [sliderToBeta(sliderValue)]. *)
Definition sliderToBeta_in {T : Type} (A : Elementary T) (sliderValue : T)
  : T :=
  let logMin := log A (dec A 2 2) in
  let logMax := log A (dec A 290 1) in
  let logBeta :=
    plus A logMin
      (times A (divide A sliderValue (lit A 100)) (minus A logMax logMin)) in
  max A (dec A 102 2)
    (min A (dec A 300 1) (plus A (dec A 10 1) (exp A logBeta))).

Definition betaToSlider (Math_log Math_exp : float -> float) : float -> float :=
  betaToSlider_in (binary64_with Math_log Math_exp).

Definition sliderToBeta (Math_log Math_exp : float -> float) : float -> float :=
  sliderToBeta_in (binary64_with Math_log Math_exp).

(** The same two functions read over the real numbers. *)
Definition betaToSlider_exact : R -> R := betaToSlider_in exact_with_ln.

Definition sliderToBeta_exact : R -> R := sliderToBeta_in exact_with_ln.

(** *** Derived displays of the calculator and hardware tabs *)

(** [Math.ceil(x)] of a binary64 value. *)
Definition Math_ceil (x : float) : number :=
  match Prim2SF x with
  | S754_zero _ => Int 0
  | S754_infinity false => PosInf
  | S754_infinity true => NegInf
  | S754_nan => NaN
  | S754_finite s m e =>
      let z := if s then Z.neg m else Z.pos m in
      Int (match e with
           | Z0 => z
           | Zpos p => z * 2 ^ Z.pos p
           | Zneg p => - Z.shiftr (- z) (Z.pos p)
           end)
  end.

(** [Math.round(x)] of a binary64 value: the integer nearest to [x], a
    tie going to the larger one, that is the floor of [x + 1/2] taken
    exactly. *)
Definition Math_round_float (x : float) : number :=
  match Prim2SF x with
  | S754_zero _ => Int 0
  | S754_infinity false => PosInf
  | S754_infinity true => NegInf
  | S754_nan => NaN
  | S754_finite s m e =>
      let z := if s then Z.neg m else Z.pos m in
      Int (match e with
           | Z0 => z
           | Zpos p => z * 2 ^ Z.pos p
           | Zneg p => Z.shiftr (2 * z + 2 ^ Z.pos p) (Z.pos p + 1)
           end)
  end.

(** An integer-valued number as the double it is. *)
Definition to_float (x : number) : float :=
  match x with
  | Int z => float_of_Z z
  | NaN => nan
  | PosInf => infinity
  | NegInf => neg_infinity
  end.

Section Alpha.

Variable Math_log : float -> float.

(** The quotient both alpha parameters are taken from:
    [-Math.log(0.5 * (beta - 1)) / Math.log(beta)]. *)
Definition alpha_quotient (beta : float) : float :=
  (- Math_log (0.5 * (beta - 1)) / Math_log beta)%float.

(** The displayed alpha_add: [Math.ceil] of the quotient. *)
Definition alpha_add (beta : float) : number :=
  Math_ceil (alpha_quotient beta).

(** The displayed alpha_carry: [Math.floor] of the quotient. *)
Definition alpha_carry (beta : float) : number :=
  Math_floor (alpha_quotient beta).

End Alpha.

(** The "Transistors" card of the calculator tab:
    [Math.round(gateCount.total * 1.8 * 4)]. *)
Definition transistorsCard (g : GateCount.t) : number :=
  Math_round_float (to_float (GateCount.total g) * 1.8 * 4)%float.

(** The mode badge under the beta slider. *)
Definition sliderModeBadge (beta : float) : string :=
  if (EFFICIENCY_THRESHOLD <=? beta)%float
  then "Simplified Mode" else "Full LUT Mode".

(** The mode line of the live snapshot panel. *)
Definition snapshotMode (beta : float) : string :=
  if (EFFICIENCY_THRESHOLD <=? beta)%float
  then "Simplified mode" else "Full LUT mode".

(** The description of the "Error Rate" card of the calculator tab. *)
Definition errorRateDescription (beta : float) : string :=
  if (EFFICIENCY_THRESHOLD <? beta)%float
  then "Simplified mode" else "Full LUT mode".

(** An entry of [techNodes]. *)
Record TechNode : Type := {
  transistorsPerNand : Z;
  powerPerTransistor : float;
  areaPerTransistor : float;
  frequency : float;
  voltage : float
}.

Definition techNodes : list (string * TechNode) := [
  ("3nm"%string,
   {| transistorsPerNand := 4; powerPerTransistor := 0.8;
      areaPerTransistor := 0.008; frequency := 3.5; voltage := 0.7 |});
  ("5nm"%string,
   {| transistorsPerNand := 4; powerPerTransistor := 1.2;
      areaPerTransistor := 0.015; frequency := 3.2; voltage := 0.75 |});
  ("7nm"%string,
   {| transistorsPerNand := 4; powerPerTransistor := 2.0;
      areaPerTransistor := 0.025; frequency := 3.0; voltage := 0.75 |});
  ("14nm"%string,
   {| transistorsPerNand := 4; powerPerTransistor := 4.5;
      areaPerTransistor := 0.05; frequency := 2.8; voltage := 0.8 |});
  ("22nm"%string,
   {| transistorsPerNand := 4; powerPerTransistor := 8.0;
      areaPerTransistor := 0.08; frequency := 2.5; voltage := 0.9 |});
  ("28nm"%string,
   {| transistorsPerNand := 4; powerPerTransistor := 12.0;
      areaPerTransistor := 0.12; frequency := 2.2; voltage := 1.0 |})
].

(** The memoised [tildeMetrics] object of the hardware tab. *)
Module TildeMetrics.
Record t : Type := {
  logicGates : number;
  nandGates : number;
  transistors : number;
  area : float;
  power : float;
  performance : float;
  computingDensity : float;
  energyEfficiency : float;
  computeBlocks : float
}.
End TildeMetrics.

(** [tildeMetrics] as a function of its dependency list
    [gateCount, techData]. *)
Definition tildeMetrics (g : GateCount.t) (techData : TechNode)
  : TildeMetrics.t :=
  let computeBlocks := 1000%float in
  let nandGates := Math_round_float (to_float (GateCount.total g) * 1.8)%float in
  let transistors := (nandGates * Int (transistorsPerNand techData))%js in
  let area := (to_float transistors * areaPerTransistor techData)%float in
  let powerPerBlock :=
    (to_float transistors * powerPerTransistor techData
     * frequency techData / 1000)%float in
  let totalPower := (powerPerBlock * computeBlocks)%float in
  let performance := (frequency techData * computeBlocks)%float in
  {| TildeMetrics.logicGates := GateCount.total g;
     TildeMetrics.nandGates := nandGates;
     TildeMetrics.transistors := transistors;
     TildeMetrics.area := area;
     TildeMetrics.power := totalPower;
     TildeMetrics.performance := performance;
     TildeMetrics.computingDensity :=
       (performance / (area * computeBlocks))%float;
     TildeMetrics.energyEfficiency :=
       (performance / (totalPower / 1000))%float;
     TildeMetrics.computeBlocks := computeBlocks |}.

(** Equality of two numbers of the model, as a boolean. *)
Definition number_eqb (x y : number) : bool :=
  match x, y with
  | Int a, Int b => a =? b
  | NaN, NaN | PosInf, PosInf | NegInf, NegInf => true
  | _, _ => false
  end.

(** For a gate total [T]: the two transistor estimates are equal exactly
    when [T] is a multiple of 5. *)
Definition transistor_estimates_check (T : Z) : bool :=
  Bool.eqb
    (number_eqb
       (Math_round_float (float_of_Z T * 1.8 * 4)%float)
       (Math_round_float (float_of_Z T * 1.8)%float * Int 4)%js)
    (T mod 5 =? 0).

(** The integers from 0 to [n - 1]. *)
Definition upto (n : nat) : list Z := map Z.of_nat (seq 0 n).

(** For a gate total [T]: the NAND estimate of the hardware tab is 9T/5
    rounded half up, and the transistor estimate of the calculator tab is
    36T/5 rounded half up. *)
Definition gate_estimates_check (T : Z) : bool :=
  number_eqb (Math_round_float (float_of_Z T * 1.8)%float)
    (Int ((18 * T + 5) / 10)) &&
  number_eqb (Math_round_float (float_of_Z T * 1.8 * 4)%float)
    (Int ((72 * T + 5) / 10)).

(** ** Calls *)

(** A call either returns a value or throws.  None of the functions above
    contains a [throw] statement, and [Math.log], [Math.floor], [Math.min]
    and [Math.max] never throw on numbers, so every call completes
    normally with the value the function computes. *)
Inductive completion (A : Type) : Type :=
| Normal (v : A)
| Throw (msg : string).
Arguments Normal {A}.
Arguments Throw {A}.

Definition call {A : Type} (v : A) : completion A := Normal v.

(** The call was rejected with an error. *)
Definition rejected {A : Type} (c : completion A) : Prop :=
  exists msg, c = Throw msg.

(** ** The rule table of the specification *)

(** The closed enumeration of operations and the tag of each. *)
Inductive operation : Type := op_add | op_sub | op_mul | op_div.

Definition tag (op : operation) : string :=
  match op with
  | op_add => "add"
  | op_sub => "sub"
  | op_mul => "mul"
  | op_div => "div"
  end.

Definition operations : list string := map tag [op_add; op_sub; op_mul; op_div].

Section SpecTable.

(** [lutValue d] is the LUT value at gap [d] for the beta at hand. *)
Variable lutValue : Z -> number.

(** The unclamped value of the table, with [d = |a - b|], [m = max(a,b)]
    and [maxValue = 2^w - 1]. *)
Definition spec_rule (op : operation) (w a b : Z) : number :=
  let d := Z.abs (a - b) in
  let m := Z.max a b in
  let maxValue := 2 ^ w - 1 in
  match op with
  | op_add =>
      if (a =? 0) || (b =? 0) then Int m
      else if d <? 8 then (Int m + lutValue d)%js
      else Int m
  | op_sub =>
      if a =? b then Int 0
      else if (a =? 0) || (b =? 0) then Int m
      else (Int m - lutValue d)%js
  | op_mul =>
      if (a =? 0) || (b =? 0) then Int 0
      else if (a =? 1) || (b =? 1) then Int m
      else Int (a + b - 1)
  | op_div =>
      if a =? 0 then Int 0
      else if b =? 0 then Int maxValue
      else if a =? b then Int 1
      else Int (a - b + 1)
  end.

(** [result = min(max(0, res), maxValue)]. *)
Definition spec_result (op : operation) (w a b : Z) : number :=
  Math_min (Math_max (Int 0) (spec_rule op w a b)) (Int (2 ^ w - 1)).

End SpecTable.

(** ** Assumptions on [Math.log] and a function that meets them *)

(** A strictly positive double or +Infinity. *)
Definition positive_or_inf (x : float) : Prop :=
  (exists m e, Prim2SF x = S754_finite false m e) \/
  Prim2SF x = S754_infinity false.

(** A strictly positive finite double. *)
Definition positive_finite (x : float) : Prop :=
  exists m e, Prim2SF x = S754_finite false m e.

(** A value that is not NaN and carries the sign [s]. *)
Definition signed_as (s : bool) (x : spec_float) : Prop :=
  x = S754_zero s \/ (exists m e, x = S754_finite s m e) \/
  x = S754_infinity s.

(** What the properties below use of [Math.log]: it is +0 at 1 (as
    ECMAScript requires), positive above 1, and finite at finite
    arguments above 1. *)
Record log_like (Math_log : float -> float) : Prop := {
  log_one : Math_log 1%float = 0%float;
  log_pos : forall x, (1 <? x)%float = true -> (0 <? Math_log x)%float = true;
  log_finite : forall x,
    (1 <? x)%float = true -> (x <? infinity)%float = true ->
    (Math_log x <? infinity)%float = true
}.

(** A coarse stand-in for [Math.log]: 0 at 1, 1 at finite arguments above
    1, +Infinity at +Infinity and NaN elsewhere.  It shows that the
    assumptions can be met, and serves to evaluate the calculator where
    the logarithm is not consulted. *)
Definition coarse_log (x : float) : float :=
  if (1 <? x)%float then (if (x <? infinity)%float then 1 else infinity)%float
  else if (x =? 1)%float then 0%float
  else nan.

(** ** Binary64 facts used below *)

Module F64.

Lemma digits2_pos_size (p : positive) : digits2_pos p = Pos.size p.
Proof. induction p; simpl; congruence. Qed.

Lemma digits2_pos_log2 (p : positive) :
  Z.pos (digits2_pos p) = Z.log2 (Z.pos p) + 1.
Proof.
  rewrite digits2_pos_size.
  destruct p; simpl; try reflexivity; rewrite Pos.add_1_r; reflexivity.
Qed.

(** An integer below 2^53, shifted to the top, has exactly 53 bits. *)
Lemma mantissa_53 (p : positive) :
  Z.pos p < 2 ^ 53 ->
  let k := Z.log2 (Z.pos p) in
  0 <= k <= 52 /\
  0 < Z.shiftl (Z.pos p) (52 - k) /\
  Z.log2 (Z.shiftl (Z.pos p) (52 - k)) = 52.
Proof.
  intros Hlt k.
  assert (Hk : 0 <= k <= 52).
  { split; [apply Z.log2_nonneg|].
    assert (k < 53) by (apply Z.log2_lt_pow2; lia). lia. }
  split; [exact Hk|].
  split.
  - rewrite Z.shiftl_mul_pow2 by lia.
    apply Z.mul_pos_pos; [lia | apply Z.pow_pos_nonneg; lia].
  - rewrite Z.log2_shiftl by lia. fold k. lia.
Qed.

Lemma iter_xO_shiftl (p n : positive) :
  Z.pos (Pos.iter xO p n) = Z.shiftl (Z.pos p) (Z.pos n).
Proof.
  simpl. induction n as [|n IH] using Pos.peano_ind.
  - reflexivity.
  - rewrite !Pos.iter_succ, <- IH. reflexivity.
Qed.

(** A 53-bit mantissa with an exponent in range is not rounded. *)
Lemma binary_round_aux_canonical (s : bool) (mz : positive) (ez : Z) :
  Z.log2 (Z.pos mz) = 52 -> -1074 <= ez <= 971 ->
  binary_round_aux prec emax s (Z.pos mz) ez loc_Exact = S754_finite s mz ez.
Proof.
  intros Hlog He.
  assert (Hshr : shr_fexp prec emax (Z.pos mz) ez loc_Exact =
                 ({| shr_m := Z.pos mz; shr_r := false; shr_s := false |}, ez)).
  { unfold shr_fexp, shr, SpecFloat.fexp, SpecFloat.emin, Zdigits2.
    rewrite digits2_pos_log2, Hlog.
    replace (Z.max (52 + 1 + ez - prec) (3 - emax - prec) - ez) with 0
      by (unfold prec, emax; lia).
    reflexivity. }
  unfold binary_round_aux.
  rewrite Hshr. cbn [shr_m loc_of_shr_record round_nearest_even].
  rewrite Hshr. cbn [shr_m].
  destruct (Z.leb_spec ez (emax - prec)); [reflexivity|].
  unfold prec, emax in *; lia.
Qed.

(** Below 2^53 the conversion only shifts the integer to 53 bits. *)
Lemma binary_normalize_small (p : positive) :
  Z.pos p < 2 ^ 53 ->
  binary_normalize prec emax (Z.pos p) 0 false =
  S754_finite false
    (Z.to_pos (Z.shiftl (Z.pos p) (52 - Z.log2 (Z.pos p))))
    (Z.log2 (Z.pos p) - 52).
Proof.
  intros Hlt.
  destruct (mantissa_53 p Hlt) as (Hk & _ & _).
  unfold binary_normalize, binary_round, shl_align.
  replace (SpecFloat.fexp prec emax (Z.pos (digits2_pos p) + 0))
    with (Z.log2 (Z.pos p) - 52)
    by (unfold SpecFloat.fexp, SpecFloat.emin, prec, emax;
        rewrite digits2_pos_log2; lia).
  destruct (Z.log2 (Z.pos p) - 52 - 0) as [|q|q] eqn:Hd; try lia.
  - replace (Z.log2 (Z.pos p)) with 52 by lia.
    rewrite binary_round_aux_canonical; [reflexivity | lia | lia].
  - assert (Hq : 52 - Z.log2 (Z.pos p) = Z.pos q) by lia.
    rewrite Hq, <- iter_xO_shiftl, Pos2Z.id.
    apply binary_round_aux_canonical; [|lia].
    rewrite iter_xO_shiftl, <- Hq, Z.log2_shiftl by lia. lia.
Qed.

Lemma Prim2SF_float_of_Z_pos (p : positive) :
  Z.pos p < 2 ^ 53 ->
  Prim2SF (float_of_Z (Z.pos p)) =
    S754_finite false
      (Z.to_pos (Z.shiftl (Z.pos p) (52 - Z.log2 (Z.pos p))))
      (Z.log2 (Z.pos p) - 52).
Proof.
  intros Hlt.
  destruct (mantissa_53 p Hlt) as (Hk & Hpos & Hlog).
  unfold float_of_Z. rewrite (binary_normalize_small p Hlt).
  apply Prim2SF_SF2Prim.
  unfold SpecFloat.valid_binary, SpecFloat.bounded,
    SpecFloat.canonical_mantissa, SpecFloat.fexp, SpecFloat.emin.
  rewrite digits2_pos_log2, Z2Pos.id by exact Hpos.
  rewrite Hlog.
  apply andb_true_intro; split.
  - apply Z.eqb_eq. unfold prec, emax. lia.
  - apply Z.leb_le. unfold prec, emax. lia.
Qed.

(** Integers from 2 up to 2^53 are doubles strictly between 1 and
    +Infinity. *)
Lemma float_of_Z_gt1 (n : Z) :
  2 <= n < 2 ^ 53 ->
  (1 <? float_of_Z n)%float = true /\
  (float_of_Z n <? infinity)%float = true.
Proof.
  intros [Hlo Hhi].
  destruct n as [|p|p]; try lia.
  assert (Hk : 1 <= Z.log2 (Z.pos p)).
  { apply Z.log2_le_pow2; lia. }
  rewrite !ltb_spec, (Prim2SF_float_of_Z_pos p Hhi).
  split.
  - change (Prim2SF 1) with (S754_finite false 4503599627370496 (-52)).
    unfold SFltb, SFcompare.
    destruct (Z.compare_spec (-52) (Z.log2 (Z.pos p) - 52));
      [lia | reflexivity | lia].
  - reflexivity.
Qed.

Lemma ltb_0_positive (y : float) :
  (0 <? y)%float = true -> positive_or_inf y.
Proof.
  rewrite ltb_spec.
  change (Prim2SF 0) with (S754_zero false).
  unfold positive_or_inf.
  destruct (Prim2SF y) as [s|s| |s m e]; simpl; try discriminate;
    destruct s; try discriminate; eauto.
Qed.

Lemma ltb_0_inf_positive_finite (x : float) :
  (0 <? x)%float = true -> (x <? infinity)%float = true ->
  positive_finite x.
Proof.
  intros H0 Hinf.
  destruct (ltb_0_positive x H0) as [H|H]; [exact H|].
  rewrite ltb_spec, H in Hinf. discriminate.
Qed.

(** *** Rounding never produces a NaN from a non-negative mantissa *)

Lemma shr_1_nonneg (mrs : shr_record) :
  0 <= shr_m mrs -> 0 <= shr_m (shr_1 mrs).
Proof.
  destruct mrs as [m r s]; simpl.
  destruct m as [|[q|q|]|q]; simpl; lia.
Qed.

Lemma iter_shr_1_nonneg (p : positive) :
  forall mrs, 0 <= shr_m mrs -> 0 <= shr_m (SpecFloat.iter_pos shr_1 p mrs).
Proof.
  induction p as [p IH|p IH|]; intros mrs H; simpl.
  - apply IH, IH, shr_1_nonneg, H.
  - apply IH, IH, H.
  - apply shr_1_nonneg, H.
Qed.

Lemma shr_fexp_nonneg (m e : Z) (l : location) :
  0 <= m -> 0 <= shr_m (fst (shr_fexp prec emax m e l)).
Proof.
  intros H. unfold shr_fexp, shr.
  assert (H0 : 0 <= shr_m (shr_record_of_loc m l)).
  { destruct l as [|[]]; exact H. }
  destruct (SpecFloat.fexp prec emax (Zdigits2 m + e) - e); simpl;
    auto using iter_shr_1_nonneg.
Qed.

Lemma round_nearest_even_nonneg (m : Z) (l : location) :
  0 <= m -> 0 <= round_nearest_even m l.
Proof.
  intros H. destruct l as [|[]]; simpl; try lia.
  destruct (Z.even m); lia.
Qed.

Lemma binary_round_aux_signed (s : bool) (m e : Z) (l : location) :
  0 <= m -> signed_as s (binary_round_aux prec emax s m e l).
Proof.
  intros H. unfold binary_round_aux.
  pose proof (shr_fexp_nonneg m e l H) as H1.
  destruct (shr_fexp prec emax m e l) as [mrs1 e1]; simpl in H1.
  pose proof (round_nearest_even_nonneg _ (loc_of_shr_record mrs1) H1) as H2.
  pose proof (shr_fexp_nonneg _ e1 loc_Exact H2) as H3.
  destruct (shr_fexp prec emax _ e1 loc_Exact) as [mrs2 e2]; simpl in H3.
  unfold signed_as.
  destruct (shr_m mrs2) as [|q|q]; [auto | | lia].
  destruct (e2 <=? emax - prec); eauto.
Qed.

Lemma SFdiv_core_binary_nonneg (m1 m2 : positive) (e1 e2 : Z) :
  0 <= fst (fst (SFdiv_core_binary prec emax (Z.pos m1) e1 (Z.pos m2) e2)).
Proof.
  unfold SFdiv_core_binary.
  set (s := e1 - e2 - _).
  set (m' := match s with Z0 => _ | Z.pos _ => _ | Z.neg _ => _ end).
  assert (Hm : 0 <= m').
  { subst m'. destruct s; try lia. apply Z.shiftl_nonneg. lia. }
  pose proof (Z_div_mod m' (Z.pos m2) ltac:(lia)) as Hdiv.
  destruct (Z.div_eucl m' (Z.pos m2)) as [q r]; simpl.
  destruct Hdiv as [Heq Hr]. nia.
Qed.

(** The quotient of a positive finite double by a positive double is
    a non-negative double or +Infinity, never NaN. *)
Lemma div_positive (x y : float) :
  positive_finite x -> positive_or_inf y ->
  signed_as false (Prim2SF (x / y)).
Proof.
  intros (mx & ex & Hx) Hy.
  rewrite div_spec, Hx. unfold SF64div.
  destruct Hy as [(my & ey & Hy)|Hy]; rewrite Hy; simpl.
  - pose proof (SFdiv_core_binary_nonneg mx my ex ey) as Hq.
    destruct (SFdiv_core_binary prec emax (Z.pos mx) ex (Z.pos my) ey)
      as [[q e] l]; simpl in Hq.
    apply binary_round_aux_signed, Hq.
  - left; reflexivity.
Qed.

(** A zero divided by a positive double is a zero. *)
Lemma div_zero_positive (y : float) :
  positive_or_inf y -> Prim2SF (0 / y) = S754_zero false.
Proof.
  intros Hy. rewrite div_spec.
  change (Prim2SF 0) with (S754_zero false).
  destruct Hy as [(my & ey & Hy)|Hy]; rewrite Hy; reflexivity.
Qed.

(** A positive finite double divided by +0 is +Infinity. *)
Lemma div_positive_zero (x : float) :
  positive_finite x -> Prim2SF (x / 0) = S754_infinity false.
Proof.
  intros (mx & ex & Hx). rewrite div_spec, Hx. reflexivity.
Qed.

Lemma Math_floor_nonneg (x : float) :
  signed_as false (Prim2SF x) ->
  (exists k, Math_floor x = Int k /\ 0 <= k) \/ Math_floor x = PosInf.
Proof.
  unfold Math_floor.
  intros [H|[(m & e & H)|H]]; rewrite H.
  - left; exists 0; split; [reflexivity | lia].
  - left; eexists; split; [reflexivity|].
    destruct e as [|p|p]; [lia | | apply Z.shiftr_nonneg; lia].
    apply Z.mul_nonneg_nonneg; [lia | apply Z.pow_nonneg; lia].
  - right; reflexivity.
Qed.

End F64.

(** ** The parameter [Math.log] *)

Lemma coarse_log_like : log_like coarse_log.
Proof.
  split.
  - reflexivity.
  - intros x H. unfold coarse_log. rewrite H.
    destruct (x <? infinity)%float; reflexivity.
  - intros x H1 H2. unfold coarse_log. rewrite H1, H2. reflexivity.
Qed.

(** ** Bit widths *)

(** Up to 30 bits the 32-bit shift does not wrap. *)
Lemma maxValue_small (w : Z) : 1 <= w <= 30 -> maxValue w = 2 ^ w - 1.
Proof.
  intros Hw. unfold maxValue, shl1_int32.
  rewrite Z.mod_small by lia.
  destruct (Z.eqb_spec w 31); [lia | reflexivity].
Qed.

Lemma pow2_bounds (w : Z) : 1 <= w <= 30 -> 2 <= 2 ^ w <= 2 ^ 30.
Proof.
  intros Hw. split.
  - change 2 with (2 ^ 1) at 1. apply Z.pow_le_mono_r; lia.
  - apply Z.pow_le_mono_r; lia.
Qed.

(** ** LUT values *)

Section LutValue.

Variable Math_log : float -> float.
Hypothesis Hlog : log_like Math_log.

Lemma log_beta_positive (beta : float) :
  (1 <? beta)%float = true -> positive_or_inf (Math_log beta).
Proof.
  intros H. apply F64.ltb_0_positive, (log_pos _ Hlog), H.
Qed.

Lemma log_int_positive (n : Z) :
  2 <= n < 2 ^ 53 -> positive_finite (Math_log (float_of_Z n)).
Proof.
  intros Hn. destruct (F64.float_of_Z_gt1 n Hn) as [H1 H2].
  apply F64.ltb_0_inf_positive_finite.
  - apply (log_pos _ Hlog), H1.
  - apply (log_finite _ Hlog); assumption.
Qed.

(** At gap 0 the formula branch yields 0. *)
Lemma lut_formula_0 (beta : float) :
  (1 <? beta)%float = true ->
  Math_min (Int 0)
    (Math_floor (Math_log (float_of_Z (0 + 1)) / Math_log beta)%float)
  = Int 0.
Proof.
  intros Hb.
  change (float_of_Z (0 + 1)) with 1%float.
  rewrite (log_one _ Hlog).
  unfold Math_floor.
  rewrite (F64.div_zero_positive _ (log_beta_positive beta Hb)).
  reflexivity.
Qed.

(** For beta above 1 the LUT value is an integer between 0 and the
    gap. *)
Lemma getLutValue_range (gap : Z) (beta : float) :
  0 <= gap < 2 ^ 53 - 1 -> (1 <? beta)%float = true ->
  exists v, getLutValue Math_log gap beta = Int v /\ 0 <= v <= gap.
Proof.
  intros Hgap Hb. unfold getLutValue.
  destruct ((EFFICIENCY_THRESHOLD <=? beta)%float && (0 <? gap)) eqn:Hc.
  - apply andb_true_iff in Hc. destruct Hc as [_ Hpos].
    apply Z.ltb_lt in Hpos. exists 1. split; [reflexivity | lia].
  - destruct (Z.eq_dec gap 0) as [->|Hne].
    + rewrite (lut_formula_0 beta Hb). exists 0. split; [reflexivity | lia].
    + assert (Hx : positive_finite (Math_log (float_of_Z (gap + 1))))
        by (apply log_int_positive; lia).
      pose proof (F64.div_positive _ _ Hx (log_beta_positive beta Hb)) as Hq.
      destruct (F64.Math_floor_nonneg _ Hq) as [(k & -> & Hk)| ->]; simpl.
      * exists (Z.min gap k). split; [reflexivity | lia].
      * exists gap. split; [reflexivity | lia].
Qed.

End LutValue.

(** ** The calculator *)

Lemma call_not_rejected {A : Type} (v : A) : ~ rejected (call v).
Proof. intros [msg H]. discriminate H. Qed.

Lemma not_enumerated (operation : string) :
  ~ In operation operations ->
  (operation =? "add")%string = false /\
  (operation =? "sub")%string = false /\
  (operation =? "mul")%string = false /\
  (operation =? "div")%string = false.
Proof.
  intros H.
  repeat split; apply String.eqb_neq; intros ->; apply H; simpl; tauto.
Qed.

(** C1, as stated, fails at bit width 32: [1 << 32] is 1, so the code
    clamps to [maxValue = 0], while the table of the specification clamps
    to 2^32 - 1.  For a = 5, b = 0 and add the code shows 0 and the table
    gives 5. *)
Lemma rule_table_fails_at_32_bits :
  (1 <= 32 /\ 0 <= 5 <= 2 ^ 32 - 1 /\ 0 <= 0 <= 2 ^ 32 - 1 /\
   (1 <? 2.5)%float = true) /\
  calculator coarse_log 32 5 0 (tag op_add) 2.5 = Int 0 /\
  spec_result (fun gap => getLutValue coarse_log gap 2.5) op_add 32 5 0
  = Int 5.
Proof. repeat split; try lia; vm_compute; congruence. Qed.

(** C1, amended: for every bit width from 1 to 30, where [(1 << w) - 1]
    is 2^w - 1, every beta and all operands, the result shown by the
    calculator is the clamped value of the rule table of the
    specification, with [lutValue] read as [getLutValue].  The bounds on
    the operands and on beta are not needed. *)
Theorem rule_table_upto_30_bits (Math_log : float -> float)
    (w a b : Z) (op : operation) (beta : float) :
  1 <= w <= 30 ->
  calculator Math_log w a b (tag op) beta =
  spec_result (fun gap => getLutValue Math_log gap beta) op w a b.
Proof.
  intros Hw.
  unfold calculator, spec_result, spec_rule.
  rewrite (maxValue_small w Hw).
  destruct op; reflexivity.
Qed.

Lemma rule_table_upto_30_bits_witness :
  1 <= 4 <= 30 /\
  calculator coarse_log 4 5 3 (tag op_add) 2.5 =
  spec_result (fun gap => getLutValue coarse_log gap 2.5) op_add 4 5 3.
Proof.
  split; [lia | apply (rule_table_upto_30_bits coarse_log 4 5 3 op_add 2.5); lia].
Defined.

(** C2, as stated, fails at bit width 31: [1 << 31] is -2^31, so
    [maxValue] is negative and so is the clamped result. *)
Lemma result_out_of_range_at_31_bits :
  (1 <= 31 /\ 0 <= 0 <= 2 ^ 31 - 1 /\ (1 <? 2.5)%float = true /\
   In "mul"%string operations) /\
  calculator coarse_log 31 0 0 "mul" 2.5 = Int (-2147483649) /\
  ~ (exists r, calculator coarse_log 31 0 0 "mul" 2.5 = Int r /\
               0 <= r <= 2 ^ 31 - 1).
Proof.
  assert (H : calculator coarse_log 31 0 0 "mul" 2.5 = Int (-2147483649))
    by (vm_compute; reflexivity).
  repeat split; try lia; try exact H.
  - simpl; tauto.
  - intros (r & Hr & Hlo & _). rewrite H in Hr. injection Hr as <-. lia.
Qed.

(** C2, amended: for every bit width from 1 to 30, operands in
    [0, 2^w - 1], beta above 1 and each of the four operations, the result
    is an integer in [0, 2^w - 1], provided [Math.log] is +0 at 1,
    positive above 1 and finite at finite arguments. *)
Theorem result_in_range (Math_log : float -> float) (w a b : Z)
    (operation : string) (beta : float) :
  log_like Math_log ->
  1 <= w <= 30 ->
  0 <= a <= 2 ^ w - 1 -> 0 <= b <= 2 ^ w - 1 ->
  (1 <? beta)%float = true ->
  In operation operations ->
  exists r, calculator Math_log w a b operation beta = Int r /\
            0 <= r <= 2 ^ w - 1.
Proof.
  intros Hlog Hw Ha Hb Hbeta Hop.
  pose proof (pow2_bounds w Hw) as Hpow.
  assert (H30 : 2 ^ 30 = 1073741824) by reflexivity.
  assert (H53 : 2 ^ 53 = 9007199254740992) by reflexivity.
  destruct (getLutValue_range Math_log Hlog (Z.abs (a - b)) beta
              ltac:(lia) Hbeta) as (v & Hv & Hvr).
  unfold calculator, result, commonTerms; cbn [Za Zb Ua Ub E d m].
  rewrite (maxValue_small w Hw), Hv.
  simpl in Hop.
  destruct Hop as [<-|[<-|[<-|[<-|[]]]]]; cbn [String.eqb Ascii.eqb Bool.eqb];
    destruct (Z.eqb_spec a 0); destruct (Z.eqb_spec b 0);
    destruct (Z.eqb_spec a 1); destruct (Z.eqb_spec b 1);
    destruct (Z.eqb_spec a b); destruct (Z.ltb_spec (Z.abs (a - b)) 8);
    cbn [orb Math_min Math_max Num.add Num.sub Num.neg];
    eexists; (split; [reflexivity | lia]).
Qed.

Lemma result_in_range_witness :
  exists r, calculator coarse_log 4 5 3 "add" 2.5 = Int r /\
            0 <= r <= 2 ^ 4 - 1.
Proof.
  apply (result_in_range coarse_log 4 5 3 "add" 2.5).
  - exact coarse_log_like.
  - lia.
  - simpl; lia.
  - simpl; lia.
  - reflexivity.
  - simpl; tauto.
Defined.

(** C10, as stated, fails at bit width 31, where [maxValue] is negative:
    1 divided by 2 shows -2147483649. *)
Lemma small_by_large_div_at_31_bits :
  (1 <= 31 /\ 0 < 1 /\ 1 < 2 /\ 2 <= 2 ^ 31 - 1) /\
  calculator coarse_log 31 1 2 "div" 2.5 = Int (-2147483649) /\
  calculator coarse_log 31 1 2 "div" 2.5 <> Int 0.
Proof.
  assert (H : calculator coarse_log 31 1 2 "div" 2.5 = Int (-2147483649))
    by (vm_compute; reflexivity).
  repeat split; try lia; try exact H.
  rewrite H. discriminate.
Qed.

(** C10, amended: for every bit width from 1 to 30 and operands with
    0 < a < b <= 2^w - 1, div shows 0: the unclamped value a - b + 1 is at
    most 0. *)
Theorem small_by_large_div_is_zero (Math_log : float -> float) (w a b : Z)
    (beta : float) :
  1 <= w <= 30 -> 0 < a -> a < b -> b <= 2 ^ w - 1 ->
  calculator Math_log w a b "div" beta = Int 0.
Proof.
  intros Hw Ha Hab Hb.
  unfold calculator, result, commonTerms; cbn [Za Zb Ua Ub E d m].
  rewrite (maxValue_small w Hw).
  cbn [String.eqb Ascii.eqb Bool.eqb].
  destruct (Z.eqb_spec a 0); [lia|].
  destruct (Z.eqb_spec b 0); [lia|].
  destruct (Z.eqb_spec a b); [lia|].
  cbn [Math_min Math_max]. f_equal. lia.
Qed.

Lemma small_by_large_div_is_zero_witness :
  calculator coarse_log 4 3 7 "div" 2.5 = Int 0.
Proof.
  apply (small_by_large_div_is_zero coarse_log 4 3 7 2.5); simpl; lia.
Defined.

(** C3, as stated, fails on every tag outside the enumeration: for
    "pow" the call is not rejected and shows the number 0. *)
Lemma unknown_operation_not_rejected :
  ~ In "pow"%string operations /\
  ~ rejected (call (calculator coarse_log 4 5 3 "pow" 2.5)) /\
  calculator coarse_log 4 5 3 "pow" 2.5 = Int 0.
Proof.
  split; [|split].
  - simpl. intros [H|[H|[H|[H|[]]]]]; discriminate H.
  - apply call_not_rejected.
  - vm_compute; reflexivity.
Qed.

(** C3, amended: for every operation tag outside {add, sub, mul, div} the
    calculator takes the [default] branch: the call is not rejected and
    shows the clamp of 0, which is 0 for every bit width from 1 to 30. *)
Theorem unknown_operation_defaults_to_zero (Math_log : float -> float)
    (w a b : Z) (operation : string) (beta : float) :
  ~ In operation operations ->
  ~ rejected (call (calculator Math_log w a b operation beta)) /\
  calculator Math_log w a b operation beta = Int (Z.min 0 (maxValue w)) /\
  (1 <= w <= 30 -> calculator Math_log w a b operation beta = Int 0).
Proof.
  intros Hop.
  destruct (not_enumerated operation Hop) as (H1 & H2 & H3 & H4).
  assert (H : calculator Math_log w a b operation beta
              = Int (Z.min 0 (maxValue w))).
  { unfold calculator, result. rewrite H1, H2, H3, H4. reflexivity. }
  split; [apply call_not_rejected|].
  split; [exact H|].
  intros Hw. rewrite H, (maxValue_small w Hw).
  pose proof (pow2_bounds w Hw). f_equal. lia.
Qed.

Lemma unknown_operation_defaults_to_zero_witness :
  ~ rejected (call (calculator coarse_log 4 5 3 "mod" 2.5)) /\
  calculator coarse_log 4 5 3 "mod" 2.5 = Int (Z.min 0 (maxValue 4)) /\
  (1 <= 4 <= 30 -> calculator coarse_log 4 5 3 "mod" 2.5 = Int 0).
Proof.
  apply (unknown_operation_defaults_to_zero coarse_log 4 5 3 "mod" 2.5).
  simpl. intros [H|[H|[H|[H|[]]]]]; discriminate H.
Defined.

(** ** LUT sizing and lookup *)

(** 8 / (1 - 1) is +Infinity, and so are its floor and the maximum. *)
Lemma calculateLutLength_1 : calculateLutLength 1 = PosInf.
Proof. vm_compute; reflexivity. Qed.

(** C4, as stated, fails: at beta = 1 [calculateLutLength] returns
    Infinity instead of signalling an error. *)
Lemma lut_length_at_1_not_rejected :
  ~ rejected (call (calculateLutLength 1)) /\
  calculateLutLength 1 = PosInf.
Proof. split; [apply call_not_rejected | exact calculateLutLength_1]. Qed.

(** C4, amended: at beta = 1 neither function signals an error:
    [calculateLutLength(1)] returns Infinity, [getLutValue(0, 1)] returns
    NaN, and [getLutValue(d, 1)] returns d for every gap d > 0 (given a
    [Math.log] that is +0 at 1 and positive and finite above 1). *)
Theorem beta_1_is_not_guarded (Math_log : float -> float) :
  log_like Math_log ->
  (~ rejected (call (calculateLutLength 1)) /\
   calculateLutLength 1 = PosInf) /\
  (~ rejected (call (getLutValue Math_log 0 1)) /\
   getLutValue Math_log 0 1 = NaN) /\
  (forall gap, 0 < gap < 2 ^ 53 - 1 ->
     ~ rejected (call (getLutValue Math_log gap 1)) /\
     getLutValue Math_log gap 1 = Int gap).
Proof.
  intros Hlog.
  split; [split; [apply call_not_rejected | exact calculateLutLength_1]|].
  split.
  - split; [apply call_not_rejected|].
    unfold getLutValue.
    change (float_of_Z (0 + 1)) with 1%float.
    rewrite (log_one _ Hlog). vm_compute; reflexivity.
  - intros gap Hgap. split; [apply call_not_rejected|].
    unfold getLutValue.
    change ((EFFICIENCY_THRESHOLD <=? 1)%float) with false.
    cbn [andb].
    rewrite (log_one _ Hlog).
    unfold Math_floor.
    rewrite (F64.div_positive_zero _
               (log_int_positive Math_log Hlog (gap + 1) ltac:(lia))).
    reflexivity.
Qed.

Lemma beta_1_is_not_guarded_witness :
  calculateLutLength 1 = PosInf /\
  getLutValue coarse_log 0 1 = NaN /\
  getLutValue coarse_log 3 1 = Int 3.
Proof.
  pose proof (beta_1_is_not_guarded coarse_log coarse_log_like)
    as ((_ & H1) & (_ & H2) & H3).
  split; [exact H1|]. split; [exact H2|].
  apply (H3 3). simpl; lia.
Defined.

(** Comparisons of doubles: swapping the arguments reverses the order. *)
Lemma SFcompare_antisym (x y : spec_float) :
  SFcompare y x = option_map CompOpp (SFcompare x y).
Proof.
  destruct x as [sx|sx| |sx mx ex], y as [sy|sy| |sy my ey]; simpl;
    try (destruct sx); try (destruct sy); try reflexivity;
    rewrite (Z.compare_antisym ex ey);
    destruct (ex ?= ey); simpl; try reflexivity;
    replace (Pos.compare_cont Eq my mx)
      with (CompOpp (Pos.compare_cont Eq mx my))
      by (apply (Pos.compare_cont_antisym mx my Eq));
    destruct (Pos.compare_cont Eq mx my); reflexivity.
Qed.

Lemma ltb_not_leb (x y : float) :
  (x <? y)%float = true -> (y <=? x)%float = false.
Proof.
  rewrite ltb_spec, leb_spec. unfold SFltb, SFleb.
  rewrite (SFcompare_antisym (Prim2SF x) (Prim2SF y)).
  destruct (SFcompare (Prim2SF x) (Prim2SF y)) as [[]|]; simpl; congruence.
Qed.

(** C5, as stated, fails at beta = 1.1: in binary64, 1.1 - 1 is
    0.10000000000000009 and 8 divided by it is 79.99999999999993, whose
    floor is 79, not 80. *)
Lemma lut_length_at_1_1_is_79 :
  ((1 <? 1.1)%float = true /\ (1.1 <? 2)%float = true) /\
  (1.1 - 1)%float = 0.10000000000000009%float /\
  (8 / (1.1 - 1))%float = 79.99999999999993%float /\
  calculateLutLength 1.1 = Int 79 /\
  calculateLutLength 1.1 <> Int 80.
Proof.
  assert (H : calculateLutLength 1.1 = Int 79) by (vm_compute; reflexivity).
  repeat split; try exact H.
  rewrite H. discriminate.
Qed.

(** C5, amended: [calculateLutLength] returns 1 for every beta >= 2.0 and
    max(1, floor(8 / (beta - 1))), evaluated in binary64, for every beta
    with 1 < beta < 2.0; it returns 16 at 1.5 and 79 at 1.1. *)
Theorem calculateLutLength_cases :
  (forall beta, (2 <=? beta)%float = true -> calculateLutLength beta = Int 1) /\
  (forall beta, (1 <? beta)%float = true -> (beta <? 2)%float = true ->
     calculateLutLength beta =
     Math_max (Int 1) (Math_floor (8 / (beta - 1))%float)) /\
  calculateLutLength 1.5 = Int 16 /\
  calculateLutLength 1.1 = Int 79.
Proof.
  split; [|split; [|split]].
  - intros beta H. unfold calculateLutLength, EFFICIENCY_THRESHOLD.
    rewrite H. reflexivity.
  - intros beta _ H. unfold calculateLutLength, EFFICIENCY_THRESHOLD.
    rewrite (ltb_not_leb _ _ H). reflexivity.
  - vm_compute; reflexivity.
  - vm_compute; reflexivity.
Qed.

Lemma calculateLutLength_cases_witness :
  calculateLutLength 4 = Int 1 /\
  calculateLutLength 1.4 = Math_max (Int 1) (Math_floor (8 / (1.4 - 1))%float).
Proof.
  destruct calculateLutLength_cases as (Hge & Hlt & _).
  split.
  - apply (Hge 4%float). reflexivity.
  - apply (Hlt 1.4%float); reflexivity.
Defined.



(** ** Gate counts *)

(** C9: for bit width 4 and beta = 2.5 (Simplified Mode, LUT length 1)
    the gate counts are shared 56, add 28, sub 36, mul 20, div 20,
    control 36, lut 4 and total 200. *)
Theorem gateCount_4_bits_beta_2_5 :
  (EFFICIENCY_THRESHOLD <=? 2.5)%float = true /\
  calculateLutLength 2.5 = Int 1 /\
  GateCount.shared (gateCount_of 4 2.5) = Int 56 /\
  GateCount.add (gateCount_of 4 2.5) = Int 28 /\
  GateCount.sub (gateCount_of 4 2.5) = Int 36 /\
  GateCount.mul (gateCount_of 4 2.5) = Int 20 /\
  GateCount.div (gateCount_of 4 2.5) = Int 20 /\
  GateCount.control (gateCount_of 4 2.5) = Int 36 /\
  GateCount.lut (gateCount_of 4 2.5) = Int 4 /\
  GateCount.total (gateCount_of 4 2.5) = Int 200 /\
  56 + 28 + 36 + 20 + 20 + 36 + 4 = 200.
Proof. repeat split; vm_compute; reflexivity. Qed.

(** ** Error percentage *)

Lemma errorPercentage_binary64 (beta : float) :
  errorPercentage beta = (100 * (beta - 1) / (beta + 1))%float.
Proof. reflexivity. Qed.

Lemma errorPercentage_exact_eq (beta : R) :
  errorPercentage_exact beta = (100 * (beta - 1) / (beta + 1))%R.
Proof. reflexivity. Qed.

(** Over the reals the formula is 100 - 200 / (beta + 1). *)
Lemma errorPercentage_exact_alt (beta : R) :
  (1 < beta)%R ->
  errorPercentage_exact beta = (100 - 200 * / (beta + 1))%R.
Proof.
  intros H. rewrite errorPercentage_exact_eq. field. lra.
Qed.

(** C8, as stated, fails on the doubles the code computes with: the
    results at 29.999999999999996 and at 30 are the same double, so
    [errorPercentage] is not strictly increasing, and at 1e16 the result
    is exactly 100, outside the open interval (0, 100). *)
Lemma errorPercentage_ties_in_binary64 :
  ((1 <? 29.999999999999996)%float = true /\
   (29.999999999999996 <? 30)%float = true /\
   errorPercentage 29.999999999999996 = errorPercentage 30 /\
   (errorPercentage 29.999999999999996 <? errorPercentage 30)%float = false) /\
  ((1 <? 1e16)%float = true /\
   errorPercentage 1e16 = 100%float /\
   (errorPercentage 1e16 <? 100)%float = false).
Proof. repeat split. Qed.

(** C8, amended: read over the real numbers, 100 * (beta - 1) / (beta + 1)
    is strictly increasing for beta > 1, lies in the open interval
    (0, 100) and equals 100/3 at beta = 2; evaluated in binary64 at
    beta = 2.0 it is the double 100/3 = 33.333333333333336. *)
Theorem errorPercentage_exact_monotone_bounded :
  (forall x y : R, (1 < x)%R -> (x < y)%R ->
     (errorPercentage_exact x < errorPercentage_exact y)%R) /\
  (forall x : R, (1 < x)%R ->
     (0 < errorPercentage_exact x < 100)%R) /\
  errorPercentage_exact 2 = (100 / 3)%R /\
  errorPercentage 2 = (100 / 3)%float /\
  errorPercentage 2 = 33.333333333333336%float.
Proof.
  split; [|split; [|split; [|split]]].
  - intros x y Hx Hxy.
    rewrite !errorPercentage_exact_alt by lra.
    assert (Hinv : (/ (y + 1) < / (x + 1))%R).
    { apply Rinv_lt_contravar; [|lra].
      apply Rmult_lt_0_compat; lra. }
    lra.
  - intros x Hx.
    rewrite errorPercentage_exact_alt by lra.
    assert (Hpos : (0 < / (x + 1))%R) by (apply Rinv_0_lt_compat; lra).
    assert (Hlt : (/ (x + 1) < / 2)%R).
    { apply Rinv_lt_contravar; [|lra].
      apply Rmult_lt_0_compat; lra. }
    lra.
  - rewrite errorPercentage_exact_eq. field.
  - reflexivity.
  - reflexivity.
Qed.

Lemma errorPercentage_exact_monotone_bounded_witness :
  (errorPercentage_exact 2 < errorPercentage_exact 3)%R /\
  (0 < errorPercentage_exact 2 < 100)%R.
Proof.
  destruct errorPercentage_exact_monotone_bounded as (Hmono & Hbound & _).
  split.
  - apply (Hmono 2%R 3%R); lra.
  - apply (Hbound 2%R); lra.
Defined.


(** ** Beta conversion functions *)

(** The decimal literals of the two functions are the doubles JavaScript
    reads them as. *)
Lemma slider_literals (Math_log Math_exp : float -> float) :
  let A := binary64_with Math_log Math_exp in
  dec A 102 2 = 1.02%float /\ dec A 300 1 = 30%float /\
  dec A 10 1 = 1%float /\ dec A 2 2 = 0.02%float /\
  dec A 290 1 = 29%float /\ lit A 100 = 100%float /\ lit A 0 = 0%float.
Proof. repeat split. Qed.

(** The boundary clamps of [betaToSlider] do not consult [Math.log]. *)
Lemma betaToSlider_boundaries (Math_log Math_exp : float -> float) :
  betaToSlider Math_log Math_exp 1.02 = 0%float /\
  betaToSlider Math_log Math_exp 30 = 100%float.
Proof. split; reflexivity. Qed.

Lemma exact_literals :
  dec exact_with_ln 102 2 = 1.02%R /\ dec exact_with_ln 300 1 = 30%R /\
  dec exact_with_ln 10 1 = 1%R /\ dec exact_with_ln 2 2 = 0.02%R /\
  dec exact_with_ln 290 1 = 29%R.
Proof.
  cbn [dec exact_with_ln].
  change (10 ^ Z.of_nat 2) with 100. change (10 ^ Z.of_nat 1) with 10.
  repeat split; lra.
Qed.

(** Read over the real numbers, the two functions are inverse to each
    other strictly inside (1.02, 30): the round trip is the identity.
    What the doubles add to this is the rounding of each operation and of
    the engine's [Math.log] and [Math.exp]. *)
Lemma slider_round_trip_exact (beta : R) :
  (1.02 < beta < 30)%R ->
  sliderToBeta_exact (betaToSlider_exact beta) = beta.
Proof.
  intros [Hlo Hhi].
  destruct exact_literals as (E1 & E2 & E3 & E4 & E5).
  unfold sliderToBeta_exact, betaToSlider_exact, sliderToBeta_in,
    betaToSlider_in.
  rewrite E1, E2, E3, E4, E5.
  cbn [le log exp max min arith exact_with_ln lit plus minus times divide
       exact].
  destruct (Rle_dec beta 1.02) as [H|_]; [lra|].
  destruct (Rle_dec 30 beta) as [H|_]; [lra|].
  assert (Hln : (ln 0.02 < ln 29)%R) by (apply ln_increasing; lra).
  replace (ln 0.02 +
           (ln (beta - 1) - ln 0.02) / (ln 29 - ln 0.02) * 100 / 100
           * (ln 29 - ln 0.02))%R
    with (ln (beta - 1)) by (field; lra).
  rewrite exp_ln by lra.
  replace (1 + (beta - 1))%R with beta by ring.
  rewrite Rmin_right by lra.
  rewrite Rmax_right by lra.
  reflexivity.
Qed.

(** ** Further properties of the calculator *)

(** Unfolds the calculator down to the tests on the operands. *)
Ltac unfold_calculator :=
  unfold calculator, result, commonTerms; cbn [Za Zb Ua Ub E d m];
  cbn [String.eqb Ascii.eqb Bool.eqb].

(** Decides the tests on the operands and the clamp. *)
Ltac split_operands a b :=
  destruct (Z.eqb_spec a 0); destruct (Z.eqb_spec b 0);
  destruct (Z.eqb_spec a 1); destruct (Z.eqb_spec b 1);
  destruct (Z.eqb_spec a b); destruct (Z.ltb_spec (Z.abs (a - b)) 8);
  cbn [orb Math_min Math_max Num.add Num.sub Num.neg].

(** Every operation except div is symmetric in its operands, sub
    included: the rules read the operands only through the zero and one
    flags of either, their gap, their maximum and the sum a + b. *)
Theorem calculator_symmetric (Math_log : float -> float) (w a b : Z)
    (operation : string) (beta : float) :
  operation <> "div"%string ->
  calculator Math_log w a b operation beta =
  calculator Math_log w b a operation beta.
Proof.
  intros Hop.
  unfold calculator, result, commonTerms; cbn [Za Zb Ua Ub E d m].
  apply String.eqb_neq in Hop. rewrite Hop.
  replace (Z.abs (b - a)) with (Z.abs (a - b)) by lia.
  rewrite (Z.max_comm b a), (Z.eqb_sym b a), (Z.add_comm b a).
  rewrite (orb_comm (b =? 0) (a =? 0)), (orb_comm (b =? 1) (a =? 1)).
  reflexivity.
Qed.

Lemma calculator_symmetric_witness :
  calculator coarse_log 4 9 2 "sub" 2.5 = calculator coarse_log 4 2 9 "sub" 2.5.
Proof.
  apply (calculator_symmetric coarse_log 4 9 2 "sub" 2.5). discriminate.
Defined.

(** Zero is neutral for add and sub on either side, and one is neutral
    for mul on either side and for div on the right, whatever beta and
    [Math.log] are. *)
Theorem calculator_neutral_elements (Math_log : float -> float) (w a : Z)
    (beta : float) :
  1 <= w <= 30 -> 0 <= a <= 2 ^ w - 1 ->
  calculator Math_log w a 0 "add" beta = Int a /\
  calculator Math_log w 0 a "add" beta = Int a /\
  calculator Math_log w a 0 "sub" beta = Int a /\
  calculator Math_log w 0 a "sub" beta = Int a /\
  calculator Math_log w a 1 "mul" beta = Int a /\
  calculator Math_log w 1 a "mul" beta = Int a /\
  calculator Math_log w a 1 "div" beta = Int a.
Proof.
  intros Hw Ha.
  pose proof (pow2_bounds w Hw) as Hpow.
  unfold_calculator. rewrite (maxValue_small w Hw).
  change (0 =? 0) with true. change (1 =? 1) with true.
  change (0 =? 1) with false. change (1 =? 0) with false.
  destruct (Z.eqb_spec a 0); destruct (Z.eqb_spec a 1);
    destruct (Z.eqb_spec 0 a); destruct (Z.eqb_spec 1 a); try lia;
    cbn [orb Math_min Math_max];
    repeat split; f_equal; lia.
Qed.

Lemma calculator_neutral_elements_witness :
  calculator coarse_log 4 9 0 "sub" 2.5 = Int 9 /\
  calculator coarse_log 4 9 1 "div" 2.5 = Int 9.
Proof.
  destruct (calculator_neutral_elements coarse_log 4 9 2.5)
    as (_ & _ & H1 & _ & _ & _ & H2); [lia | simpl; lia |].
  split; assumption.
Defined.

(** add never returns less than the larger operand and never adds more
    than the gap, nor more than 7, to it. *)
Theorem add_between_max_and_gap (Math_log : float -> float) (w a b : Z)
    (beta : float) :
  log_like Math_log ->
  1 <= w <= 30 -> 0 <= a <= 2 ^ w - 1 -> 0 <= b <= 2 ^ w - 1 ->
  (1 <? beta)%float = true ->
  exists r, calculator Math_log w a b "add" beta = Int r /\
            Z.max a b <= r <= Z.max a b + Z.min (Z.abs (a - b)) 7 /\
            r <= 2 ^ w - 1.
Proof.
  intros Hlog Hw Ha Hb Hbeta.
  pose proof (pow2_bounds w Hw) as Hpow.
  assert (H30 : 2 ^ 30 = 1073741824) by reflexivity.
  assert (H53 : 2 ^ 53 = 9007199254740992) by reflexivity.
  destruct (getLutValue_range Math_log Hlog (Z.abs (a - b)) beta
              ltac:(lia) Hbeta) as (v & Hv & Hvr).
  unfold_calculator. rewrite (maxValue_small w Hw), Hv.
  split_operands a b; eexists; (split; [reflexivity | lia]).
Qed.

Lemma add_between_max_and_gap_witness :
  exists r, calculator coarse_log 4 5 3 "add" 1.5 = Int r /\
            Z.max 5 3 <= r <= Z.max 5 3 + Z.min (Z.abs (5 - 3)) 7 /\
            r <= 2 ^ 4 - 1.
Proof.
  apply (add_between_max_and_gap coarse_log 4 5 3 1.5).
  - exact coarse_log_like.
  - lia.
  - simpl; lia.
  - simpl; lia.
  - reflexivity.
Defined.



(** Adding a value to itself returns the value unchanged, for every beta
    above 1: the LUT value at gap 0 is 0. *)
Theorem add_to_itself (Math_log : float -> float) (w a : Z) (beta : float) :
  log_like Math_log ->
  1 <= w <= 30 -> 0 <= a <= 2 ^ w - 1 ->
  (1 <? beta)%float = true ->
  calculator Math_log w a a "add" beta = Int a.
Proof.
  intros Hlog Hw Ha Hbeta.
  pose proof (pow2_bounds w Hw) as Hpow.
  assert (Hv : getLutValue Math_log 0 beta = Int 0).
  { unfold getLutValue. rewrite andb_false_r.
    apply (lut_formula_0 Math_log Hlog beta Hbeta). }
  unfold_calculator. rewrite (maxValue_small w Hw).
  replace (Z.abs (a - a)) with 0 by lia. rewrite Hv.
  change (0 <? 8) with true.
  destruct (Z.eqb_spec a 0); cbn [orb Math_min Math_max Num.add];
    f_equal; lia.
Qed.

Lemma add_to_itself_witness :
  calculator coarse_log 4 6 6 "add" 1.5 = Int 6.
Proof.
  apply (add_to_itself coarse_log 4 6 1.5).
  - exact coarse_log_like.
  - lia.
  - simpl; lia.
  - reflexivity.
Defined.

(** In Simplified Mode (beta >= 2.0) the result for two different nonzero
    operands does not consult [Math.log]: add is the larger operand plus
    one (clamped) when the gap is below 8 and the larger operand
    otherwise; sub is the larger operand minus one. *)
Theorem simplified_mode_add_sub (Math_log : float -> float) (w a b : Z)
    (beta : float) :
  (2 <=? beta)%float = true ->
  1 <= w <= 30 -> 0 < a <= 2 ^ w - 1 -> 0 < b <= 2 ^ w - 1 -> a <> b ->
  calculator Math_log w a b "add" beta =
    Int (if Z.abs (a - b) <? 8 then Z.min (Z.max a b + 1) (2 ^ w - 1)
         else Z.max a b) /\
  calculator Math_log w a b "sub" beta = Int (Z.max a b - 1).
Proof.
  intros Hbeta Hw Ha Hb Hab.
  assert (Hv : getLutValue Math_log (Z.abs (a - b)) beta = Int 1).
  { unfold getLutValue, EFFICIENCY_THRESHOLD. rewrite Hbeta.
    destruct (Z.ltb_spec 0 (Z.abs (a - b))); [reflexivity | lia]. }
  unfold_calculator. rewrite (maxValue_small w Hw), Hv.
  split_operands a b; try lia; split; f_equal; lia.
Qed.

Lemma simplified_mode_add_sub_witness :
  calculator coarse_log 4 5 3 "add" 2.5 =
    Int (if Z.abs (5 - 3) <? 8 then Z.min (Z.max 5 3 + 1) (2 ^ 4 - 1)
         else Z.max 5 3) /\
  calculator coarse_log 4 5 3 "sub" 2.5 = Int (Z.max 5 3 - 1).
Proof.
  apply (simplified_mode_add_sub coarse_log 4 5 3 2.5);
    try reflexivity; simpl; lia.
Defined.

(** div undoes mul and mul undoes div on operands from 2 up, as long as
    the product index a + b - 1 is not clamped. *)
Theorem mul_div_round_trip (Math_log : float -> float) (w a b : Z)
    (beta : float) :
  1 <= w <= 30 -> 2 <= a -> 2 <= b -> a + b - 1 <= 2 ^ w - 1 ->
  (exists p, calculator Math_log w a b "mul" beta = Int p /\
             calculator Math_log w p b "div" beta = Int a) /\
  (exists q, calculator Math_log w (a + b - 1) b "div" beta = Int q /\
             calculator Math_log w q b "mul" beta = Int (a + b - 1)).
Proof.
  intros Hw Ha Hb Hsum.
  split.
  - exists (a + b - 1). split.
    + unfold_calculator. rewrite (maxValue_small w Hw).
      split_operands a b; try lia; f_equal; lia.
    + unfold_calculator. rewrite (maxValue_small w Hw).
      split_operands (a + b - 1) b; try lia; f_equal; lia.
  - exists a. split.
    + unfold_calculator. rewrite (maxValue_small w Hw).
      split_operands (a + b - 1) b; try lia; f_equal; lia.
    + unfold_calculator. rewrite (maxValue_small w Hw).
      split_operands a b; try lia; f_equal; lia.
Qed.

Lemma mul_div_round_trip_witness :
  (exists p, calculator coarse_log 4 3 4 "mul" 2.5 = Int p /\
             calculator coarse_log 4 p 4 "div" 2.5 = Int 3) /\
  (exists q, calculator coarse_log 4 (3 + 4 - 1) 4 "div" 2.5 = Int q /\
             calculator coarse_log 4 q 4 "mul" 2.5 = Int (3 + 4 - 1)).
Proof.
  apply (mul_div_round_trip coarse_log 4 3 4 2.5); simpl; lia.
Defined.

(** The operand inputs are not clamped to the range of the bit width.
    Whatever integers they hold (up to 2^51 in magnitude) and whatever
    the operation tag is, the result is an integer in [0, 2^w - 1]. *)
Theorem result_in_range_any_operands (Math_log : float -> float)
    (w a b : Z) (operation : string) (beta : float) :
  log_like Math_log ->
  1 <= w <= 30 ->
  Z.abs a <= 2 ^ 51 -> Z.abs b <= 2 ^ 51 ->
  (1 <? beta)%float = true ->
  exists r, calculator Math_log w a b operation beta = Int r /\
            0 <= r <= 2 ^ w - 1.
Proof.
  intros Hlog Hw Ha Hb Hbeta.
  pose proof (pow2_bounds w Hw) as Hpow.
  assert (H51 : 2 ^ 51 = 2251799813685248) by reflexivity.
  assert (H53 : 2 ^ 53 = 9007199254740992) by reflexivity.
  destruct (getLutValue_range Math_log Hlog (Z.abs (a - b)) beta
              ltac:(lia) Hbeta) as (v & Hv & Hvr).
  unfold calculator, result, commonTerms; cbn [Za Zb Ua Ub E d m].
  rewrite (maxValue_small w Hw), Hv.
  destruct (operation =? "add")%string;
    [|destruct (operation =? "sub")%string;
      [|destruct (operation =? "mul")%string;
        [|destruct (operation =? "div")%string]]];
    split_operands a b; eexists; (split; [reflexivity | lia]).
Qed.

Lemma result_in_range_any_operands_witness :
  exists r, calculator coarse_log 4 100 (-7) "mul" 1.5 = Int r /\
            0 <= r <= 2 ^ 4 - 1.
Proof.
  apply (result_in_range_any_operands coarse_log 4 100 (-7) "mul" 1.5).
  - exact coarse_log_like.
  - lia.
  - simpl; lia.
  - simpl; lia.
  - reflexivity.
Defined.

(** ** Bit widths beyond 30 *)

(** The bit width enters only through [1 << bitWidth]: widths that differ
    by 32 give the same [maxValue], and [maxValue] is negative exactly
    for the widths that are 31 modulo 32. *)
Theorem maxValue_wraps (w : Z) :
  maxValue (w + 32) = maxValue w /\
  (maxValue w < 0 <-> w mod 32 = 31) /\
  (w mod 32 = 0 -> maxValue w = 0).
Proof.
  unfold maxValue, shl1_int32.
  replace ((w + 32) mod 32) with (w mod 32)
    by (rewrite <- (Z.mul_1_l 32) at 2; rewrite Z.mod_add; lia).
  split; [reflexivity|].
  pose proof (Z.mod_pos_bound w 32 ltac:(lia)) as Hk.
  destruct (Z.eqb_spec (w mod 32) 31) as [H31|H31].
  - split; [|lia]. split; [intros _; exact H31 | intros _; simpl; lia].
  - assert (0 < 2 ^ (w mod 32)) by (apply Z.pow_pos_nonneg; lia).
    split; [split; lia|].
    intros H0. rewrite H0. reflexivity.
Qed.

Lemma maxValue_wraps_witness :
  (maxValue 31 < 0 <-> 31 mod 32 = 31) /\ maxValue 64 = 0.
Proof.
  destruct (maxValue_wraps 31) as (_ & H31 & _).
  destruct (maxValue_wraps 64) as (_ & _ & H64).
  split; [exact H31 | apply H64; reflexivity].
Defined.

(** ** Further properties of the LUT functions *)

(** For beta above 1 the LUT value is an integer between 0 and the gap,
    so that adding it never more than doubles the gap and subtracting it
    never goes below the smaller operand. *)
Theorem lut_value_between_0_and_gap (Math_log : float -> float) (gap : Z)
    (beta : float) :
  log_like Math_log ->
  0 <= gap < 2 ^ 53 - 1 -> (1 <? beta)%float = true ->
  exists v, getLutValue Math_log gap beta = Int v /\ 0 <= v <= gap.
Proof.
  intros Hlog Hgap Hbeta.
  exact (getLutValue_range Math_log Hlog gap beta Hgap Hbeta).
Qed.

Lemma lut_value_between_0_and_gap_witness :
  exists v, getLutValue coarse_log 5 1.5 = Int v /\ 0 <= v <= 5.
Proof.
  apply (lut_value_between_0_and_gap coarse_log 5 1.5).
  - exact coarse_log_like.
  - simpl; lia.
  - reflexivity.
Defined.



(** [calculateLutLength] never returns a number below 1, whatever beta
    is (below 1, negative or NaN included): the result is an integer from
    1 up, Infinity or NaN, and it is what the slider badge shows as "LUT
    Length". *)
Theorem calculateLutLength_at_least_1 (beta : float) :
  (exists n, calculateLutLength beta = Int n /\ 1 <= n) \/
  calculateLutLength beta = PosInf \/ calculateLutLength beta = NaN.
Proof.
  unfold calculateLutLength.
  destruct (EFFICIENCY_THRESHOLD <=? beta)%float.
  - left. exists 1. split; [reflexivity | lia].
  - destruct (Math_floor (8 / (beta - 1))%float) as [z| | |]; simpl; auto.
    + left. exists (Z.max 1 z). split; [reflexivity | lia].
    + left. exists 1. split; [reflexivity | lia].
Qed.

(** ** Further properties of the gate counts *)




(** ** Comparisons of doubles *)

Lemma leb_ltb_eqb (x y : float) :
  (x <=? y)%float = ((x <? y)%float || (x =? y)%float).
Proof.
  rewrite leb_spec, ltb_spec, eqb_spec. unfold SFleb, SFltb, SFeqb.
  destruct (SFcompare (Prim2SF x) (Prim2SF y)) as [[]|]; reflexivity.
Qed.

Lemma ltb_leb (x y : float) :
  (x <? y)%float = true -> (x <=? y)%float = true.
Proof. intros H. rewrite leb_ltb_eqb, H. reflexivity. Qed.

Lemma not_nan_Prim2SF (x : float) :
  is_nan x = false -> Prim2SF x <> S754_nan.
Proof.
  unfold is_nan. rewrite eqb_spec. intros H Hn.
  rewrite Hn in H. discriminate H.
Qed.

(** Two doubles that are not NaN are comparable. *)
Lemma not_ltb_leb (x y : float) :
  is_nan x = false -> is_nan y = false ->
  (y <? x)%float = false -> (x <=? y)%float = true.
Proof.
  intros Hx Hy. apply not_nan_Prim2SF in Hx, Hy.
  rewrite ltb_spec, leb_spec. unfold SFltb, SFleb.
  rewrite (SFcompare_antisym (Prim2SF x) (Prim2SF y)).
  destruct (Prim2SF x) as [sx|sx| |sx mx ex];
    destruct (Prim2SF y) as [sy|sy| |sy my ey];
    try congruence;
    match goal with
    | |- context [SFcompare ?p ?q] => destruct (SFcompare p q) as [[]|] eqn:Hc
    end; simpl; try congruence; simpl in Hc;
    try (destruct sx); try (destruct sy); discriminate.
Qed.

(** ** The mode labels *)

(** The mode badge of the slider and the mode line of the snapshot panel
    switch at beta >= 2.0, the description of the "Error Rate" card at
    beta > 2.0: the three say the same mode for every beta except exactly
    2.0, where the card says Full LUT and the other two Simplified. *)
Theorem mode_labels_disagree_only_at_2 (beta : float) :
  ((beta =? 2)%float = true ->
     sliderModeBadge beta = "Simplified Mode"%string /\
     snapshotMode beta = "Simplified mode"%string /\
     errorRateDescription beta = "Full LUT mode"%string /\
     calculateLutLength beta = Int 1) /\
  ((beta =? 2)%float = false ->
     errorRateDescription beta = snapshotMode beta /\
     (sliderModeBadge beta = "Simplified Mode"%string <->
      errorRateDescription beta = "Simplified mode"%string)).
Proof.
  unfold sliderModeBadge, snapshotMode, errorRateDescription,
    calculateLutLength, EFFICIENCY_THRESHOLD.
  rewrite (leb_ltb_eqb 2 beta).
  assert (Hsym : (2 =? beta)%float = (beta =? 2)%float).
  { rewrite !eqb_spec. unfold SFeqb.
    rewrite (SFcompare_antisym (Prim2SF beta) (Prim2SF 2)).
    destruct (SFcompare (Prim2SF beta) (Prim2SF 2)) as [[]|]; reflexivity. }
  rewrite Hsym.
  split; intros He; rewrite He.
  - assert (Hlt : (2 <? beta)%float = false).
    { revert He. rewrite <- Hsym, eqb_spec, ltb_spec. unfold SFeqb, SFltb.
      destruct (SFcompare (Prim2SF 2) (Prim2SF beta)) as [[]|];
        congruence. }
    rewrite Hlt. repeat split.
  - rewrite orb_false_r.
    destruct (2 <? beta)%float; split; try reflexivity;
      split; intros H; try reflexivity; discriminate H.
Qed.

Lemma mode_labels_disagree_only_at_2_witness :
  errorRateDescription 2 = "Full LUT mode"%string /\
  errorRateDescription 2.5 = snapshotMode 2.5.
Proof.
  destruct (mode_labels_disagree_only_at_2 2) as (H2 & _).
  destruct (mode_labels_disagree_only_at_2 2.5) as (_ & H25).
  destruct (H2 eq_refl) as (_ & _ & Hcard & _).
  destruct (H25 eq_refl) as (Hsame & _).
  split; assumption.
Defined.

(** ** The slider mapping on doubles *)

(** A double from 1.02 up is above 1. *)
Lemma leb_1_02_gt_1 (r : float) :
  (1.02 <=? r)%float = true -> (1 <? r)%float = true.
Proof.
  rewrite leb_spec, ltb_spec.
  change (Prim2SF 1.02) with (S754_finite false 4593671619917906 (-52)).
  change (Prim2SF 1) with (S754_finite false 4503599627370496 (-52)).
  unfold SFleb, SFltb, SFcompare.
  destruct (Prim2SF r) as [s|s| |s mr er]; try (destruct s);
    intros H; try discriminate H; try exact H.
  revert H.
  destruct (Z.compare_spec (-52) er) as [Heq|Hlt|Hgt];
    intros H; [|exact H|discriminate H].
  revert H.
  change (Pos.compare_cont Eq 4593671619917906 mr)
    with (4593671619917906 ?= mr)%positive.
  change (Pos.compare_cont Eq 4503599627370496 mr)
    with (4503599627370496 ?= mr)%positive.
  assert (Hle : (4593671619917906 <= mr)%positive ->
                (4503599627370496 ?= mr)%positive = Lt).
  { intros Hm. apply Pos.compare_lt_iff.
    apply (Pos.lt_le_trans _ 4593671619917906); [reflexivity | exact Hm]. }
  destruct (Pos.compare_spec 4593671619917906 mr) as [Hm|Hm|Hm];
    intros H; try discriminate H.
  - rewrite Hle; [reflexivity | rewrite Hm; apply Pos.le_refl].
  - rewrite Hle; [reflexivity | apply Pos.lt_le_incl, Hm].
Qed.

Lemma clamp_1_02_30 (v : float) :
  let r := float_max 1.02 (float_min 30 v) in
  is_nan r = true \/
  ((1.02 <=? r)%float = true /\ (r <=? 30)%float = true).
Proof.
  cbv zeta. unfold float_min.
  change (is_nan 30) with false. cbn [orb].
  destruct (is_nan v) eqn:Hnan; [left; reflexivity|].
  right.
  destruct (30 <? v)%float eqn:H30; [split; reflexivity|].
  assert (Hv30 : (v <=? 30)%float = true)
    by (apply not_ltb_leb; [exact Hnan | reflexivity | exact H30]).
  assert (Hmax : (1.02 <=? float_max 1.02 v)%float = true /\
                 (float_max 1.02 v <=? 30)%float = true).
  { unfold float_max. change (is_nan 1.02) with false. cbn [orb].
    rewrite Hnan.
    destruct (1.02 <? v)%float eqn:Hlo.
    - split; [apply ltb_leb, Hlo | exact Hv30].
    - destruct (v <? 1.02)%float; [split; reflexivity|].
      change (get_sign 1.02) with false. split; reflexivity. }
  destruct (v <? 30)%float; [exact Hmax|].
  change (get_sign 30) with false. exact Hmax.
Qed.

(** Whatever the slider value and whatever [Math.log] and [Math.exp]
    return, [sliderToBeta] yields a double in [1.02, 30] or NaN: a beta
    set through the slider is never at or below the singular value 1. *)
Theorem sliderToBeta_in_range (Math_log Math_exp : float -> float)
    (sliderValue : float) :
  let beta := sliderToBeta Math_log Math_exp sliderValue in
  is_nan beta = true \/
  ((1.02 <=? beta)%float = true /\ (beta <=? 30)%float = true /\
   (1 <? beta)%float = true).
Proof.
  cbv zeta. unfold sliderToBeta, sliderToBeta_in.
  cbn [max min binary64_with].
  change (dec (binary64_with Math_log Math_exp) 102 2) with 1.02%float.
  change (dec (binary64_with Math_log Math_exp) 300 1) with 30%float.
  match goal with
  | |- context [float_min 30 ?v] => destruct (clamp_1_02_30 v) as [H|[H1 H2]]
  end.
  - left; exact H.
  - right. split; [exact H1|]. split; [exact H2|].
    apply leb_1_02_gt_1, H1.
Qed.


(** ** The alpha parameters *)

Lemma ceil_floor_adjacent (x : float) (f : Z) :
  Math_floor x = Int f ->
  exists c, Math_ceil x = Int c /\ f <= c <= f + 1.
Proof.
  unfold Math_floor, Math_ceil.
  destruct (Prim2SF x) as [s|[]| |s mx ex]; try discriminate.
  - intros [= <-]. exists 0. split; [reflexivity | lia].
  - intros [= <-].
    destruct ex as [|p|p]; eexists; (split; [reflexivity|]); try lia.
    rewrite !Z.shiftr_div_pow2 by lia.
    set (z := if s then Z.neg mx else Z.pos mx).
    assert (HD : 0 < 2 ^ Z.pos p) by (apply Z.pow_pos_nonneg; lia).
    pose proof (Z.div_mod z (2 ^ Z.pos p) ltac:(lia)).
    pose proof (Z.mod_pos_bound z (2 ^ Z.pos p) HD).
    pose proof (Z.div_mod (- z) (2 ^ Z.pos p) ltac:(lia)).
    pose proof (Z.mod_pos_bound (- z) (2 ^ Z.pos p) HD).
    nia.
Qed.

Lemma ceil_floor_not_finite (x : float) :
  (forall f, Math_floor x <> Int f) -> Math_ceil x = Math_floor x.
Proof.
  unfold Math_floor, Math_ceil.
  destruct (Prim2SF x) as [s|[]| |s mx ex]; try reflexivity; intros H.
  exfalso. eapply H. reflexivity.
Qed.

(** The two displayed alpha parameters are the ceiling and the floor of
    one quotient: whenever alpha_carry is an integer, alpha_add is that
    integer or the next one, and otherwise (beta = 1, NaN) both show the
    same non-finite value.  Nothing is assumed of [Math.log]. *)
Theorem alpha_add_is_carry_or_next (Math_log : float -> float)
    (beta : float) :
  (forall f, alpha_carry Math_log beta = Int f ->
     exists c, alpha_add Math_log beta = Int c /\ f <= c <= f + 1) /\
  ((forall f, alpha_carry Math_log beta <> Int f) ->
     alpha_add Math_log beta = alpha_carry Math_log beta).
Proof.
  unfold alpha_add, alpha_carry. split.
  - intros f. apply ceil_floor_adjacent.
  - apply ceil_floor_not_finite.
Qed.

Lemma alpha_add_is_carry_or_next_witness :
  exists c, alpha_add coarse_log 4 = Int c /\ -1 <= c <= -1 + 1.
Proof.
  destruct (alpha_add_is_carry_or_next coarse_log 4) as (H & _).
  apply (H (-1)). reflexivity.
Defined.

(** ** The transistor estimates of the two tabs *)

Lemma number_eqb_eq (x y : number) : number_eqb x y = true <-> x = y.
Proof.
  destruct x as [a| | |], y as [b| | |]; simpl;
    split; intros H; try discriminate; try reflexivity.
  - apply Z.eqb_eq in H. congruence.
  - injection H as ->. apply Z.eqb_refl.
Qed.

Lemma In_upto (n : nat) (z : Z) :
  0 <= z < Z.of_nat n -> In z (upto n).
Proof.
  intros Hz. unfold upto. apply in_map_iff.
  exists (Z.to_nat z). split; [lia|]. apply in_seq. lia.
Qed.

Lemma transistor_estimates_checked :
  forallb transistor_estimates_check (upto (Z.to_nat 6001)) = true.
Proof. vm_compute. reflexivity. Qed.

Lemma techNodes_transistorsPerNand (name : string) (node : TechNode) :
  In (name, node) techNodes -> transistorsPerNand node = 4.
Proof.
  simpl. intros H.
  repeat (destruct H as [H|H]; [injection H as _ <-; reflexivity|]).
  destruct H.
Qed.

(** The calculator tab shows [Math.round(total * 1.8 * 4)] transistors,
    the hardware tab [Math.round(total * 1.8) * transistorsPerNand] with
    4 transistors per NAND on every process node.  For every gate total
    from 0 to 6000 the two figures are equal exactly when the total is a
    multiple of 5. *)
Theorem transistor_estimates_agree_iff (g : GateCount.t) (name : string)
    (node : TechNode) (T : Z) :
  In (name, node) techNodes ->
  GateCount.total g = Int T -> 0 <= T <= 6000 ->
  (transistorsCard g = TildeMetrics.transistors (tildeMetrics g node)
   <-> T mod 5 = 0).
Proof.
  intros Hnode Htotal HT.
  unfold transistorsCard, tildeMetrics; cbn [TildeMetrics.transistors].
  rewrite Htotal, (techNodes_transistorsPerNand name node Hnode).
  cbn [to_float].
  pose proof (proj1 (forallb_forall _ _) transistor_estimates_checked T
                (In_upto (Z.to_nat 6001) T ltac:(lia))) as Hcheck.
  unfold transistor_estimates_check in Hcheck.
  apply eqb_prop in Hcheck.
  rewrite <- number_eqb_eq, Hcheck. apply Z.eqb_eq.
Qed.

Lemma transistor_estimates_agree_iff_witness :
  (transistorsCard (gateCount_of 4 2.5)
   = TildeMetrics.transistors
       (tildeMetrics (gateCount_of 4 2.5)
          {| transistorsPerNand := 4; powerPerTransistor := 2.0;
             areaPerTransistor := 0.025; frequency := 3.0;
             voltage := 0.75 |})
   <-> 200 mod 5 = 0) /\
  (transistorsCard (gateCount_of 5 2.5)
   = TildeMetrics.transistors
       (tildeMetrics (gateCount_of 5 2.5)
          {| transistorsPerNand := 4; powerPerTransistor := 2.0;
             areaPerTransistor := 0.025; frequency := 3.0;
             voltage := 0.75 |})
   <-> 223 mod 5 = 0).
Proof.
  split.
  - apply (transistor_estimates_agree_iff _ "7nm" _ 200);
      [simpl; tauto | reflexivity | lia].
  - apply (transistor_estimates_agree_iff _ "7nm" _ 223);
      [simpl; tauto | reflexivity | lia].
Defined.


Lemma gate_estimates_checked :
  forallb gate_estimates_check (upto (Z.to_nat 6001)) = true.
Proof. vm_compute. reflexivity. Qed.

(** The factor 1.8 is not a double, yet for every gate total T from 0 to
    6000 rounding hides the error: the hardware tab's NAND count is
    exactly 9T/5 rounded half up, its transistor count 4 times that, and
    the calculator tab's transistor count 36T/5 rounded half up. *)
Theorem gate_estimates_exact (g : GateCount.t) (name : string)
    (node : TechNode) (T : Z) :
  In (name, node) techNodes ->
  GateCount.total g = Int T -> 0 <= T <= 6000 ->
  TildeMetrics.nandGates (tildeMetrics g node) = Int ((18 * T + 5) / 10) /\
  TildeMetrics.transistors (tildeMetrics g node)
    = Int (4 * ((18 * T + 5) / 10)) /\
  transistorsCard g = Int ((72 * T + 5) / 10).
Proof.
  intros Hnode Htotal HT.
  unfold transistorsCard, tildeMetrics;
    cbn [TildeMetrics.transistors TildeMetrics.nandGates].
  rewrite Htotal, (techNodes_transistorsPerNand name node Hnode).
  cbn [to_float].
  pose proof (proj1 (forallb_forall _ _) gate_estimates_checked T
                (In_upto (Z.to_nat 6001) T ltac:(lia))) as Hcheck.
  unfold gate_estimates_check in Hcheck.
  apply andb_true_iff in Hcheck. destruct Hcheck as [H1 H2].
  apply number_eqb_eq in H1, H2. rewrite H1, H2.
  cbn [Num.mul]. repeat split. f_equal. lia.
Qed.

Lemma gate_estimates_exact_witness :
  TildeMetrics.nandGates
    (tildeMetrics (gateCount_of 4 2.5)
       {| transistorsPerNand := 4; powerPerTransistor := 2.0;
          areaPerTransistor := 0.025; frequency := 3.0;
          voltage := 0.75 |}) = Int ((18 * 200 + 5) / 10).
Proof.
  apply (gate_estimates_exact (gateCount_of 4 2.5) "7nm" _ 200);
    [simpl; tauto | reflexivity | lia].
Defined.

(** ** Division by zero *)

(** div never fails: a nonzero value divided by 0 shows [maxValue],
    0 divided by anything (0 included) shows 0, and a nonzero value
    divided by itself shows 1. *)
Theorem div_edge_cases (Math_log : float -> float) (w a b : Z)
    (beta : float) :
  1 <= w <= 30 -> 0 < a <= 2 ^ w - 1 ->
  calculator Math_log w a 0 "div" beta = Int (2 ^ w - 1) /\
  calculator Math_log w 0 b "div" beta = Int 0 /\
  calculator Math_log w a a "div" beta = Int 1.
Proof.
  intros Hw Ha.
  pose proof (pow2_bounds w Hw) as Hpow.
  unfold_calculator. rewrite (maxValue_small w Hw).
  change (0 =? 0) with true.
  rewrite (Z.eqb_refl a).
  destruct (Z.eqb_spec a 0); [lia|].
  cbn [orb Math_min Math_max].
  repeat split; f_equal; lia.
Qed.

Lemma div_edge_cases_witness :
  calculator coarse_log 4 5 0 "div" 2.5 = Int (2 ^ 4 - 1) /\
  calculator coarse_log 4 0 0 "div" 2.5 = Int 0 /\
  calculator coarse_log 4 5 5 "div" 2.5 = Int 1.
Proof.
  apply (div_edge_cases coarse_log 4 5 0 2.5); simpl; lia.
Defined.
